(** * turbolift: the command runner and the [update-prs] batch engine

    A shallow embedding of two Go packages of turbolift:

    - [executor] (the command runner): [RealExecutor.Execute],
      [RealExecutor.ExecuteAndCapture], [SetVerbose], [summarizedArgs];
    - [update_prs] (the batch engine): [onlyOne], [validateFlags], [run],
      [runClose].

    Go values are modelled as follows.  A Go [string] is a sequence of bytes:
    it is a Rocq [string], whose characters are the 256 values of [ascii], so
    that [String.length] is Go's [len].  A Go [int] is a [Z] kept in the
    64-bit signed range by [wrap].  A Go [error] is an [option error], [None]
    being [nil].  Calls that reach outside the program (the sink, the
    operating system, the GitHub client, the prompt) are fields of an
    interface record; they act on an abstract world, and every call is
    recorded, with its result, in a trace. *)

From stdpp Require Import base gmap list strings.
From Stdlib Require Import ZArith Lia.

Open Scope Z_scope.

(** ** Go's machine integers *)

Module GoInt.

Definition maxInt : Z := 2 ^ 63 - 1.
Definition minInt : Z := - 2 ^ 63.

  (** Two's complement wrap-around of a 64-bit signed [int]. *)
Definition wrap (z : Z) : Z := (z + 2 ^ 63) mod 2 ^ 64 - 2 ^ 63.

  (** [x++] and [x += 1]. *)
Definition incr (x : Z) : Z := wrap (x + 1).

  (** [len(s)] of a string: the number of its bytes. *)
Definition len (s : string) : Z := Z.of_nat (String.length s).

End GoInt.

(** The one-byte string that Go writes as a backslash followed by [n]. *)
Definition newline : string := String (Ascii.ascii_of_nat 10) EmptyString.

(** ** Go's errors *)

Inductive Errno : Type := ENOENT | EACCES | ENOTDIR | EIO.

(** [*exec.ExitError]: the state of the process that exited unsuccessfully
    and the standard error that [Cmd.Output] collected for it. *)
Record ExitError : Type := mkExitError {
  ProcessState : string;
  Stderr : string
}.

(** The dynamic types of [error] values that the two packages tell apart. *)
Inductive error : Type :=
| errorString (s : string)
| exitError (e : ExitError)
| wrapError (msg : string) (err : error)
| pathError (op path : string) (errno : Errno)
| NoPRFoundError (detail : string).

(** The [Error] method of an [ExitError] prints the process state. *)
Definition ExitError_Error (e : ExitError) : string := ProcessState e.

(** [errors.New]. *)
Definition errors_New (s : string) : option error := Some (errorString s).

(** ** A state monad over a world and a trace of calls *)

Section TraceMonad.
Context {W Ev : Type}.

Record State : Type := mkState { world : W; trace : list Ev }.

Definition M (A : Type) : Type := State -> A * State.

Definition ret {A} (a : A) : M A := fun s => (a, s).

Definition bind {A B} (m : M A) (k : A -> M B) : M B :=
    fun s => let (a, s') := m s in k a s'.

  (** Record an event that leaves the world alone. *)
Definition emit (ev : Ev) : M unit :=
    fun s => (tt, mkState (world s) (trace s ++ [ev])).

  (** Call the world, and record the call with its result. *)
Definition call {A} (f : W -> A * W) (ev : A -> Ev) : M A :=
    fun s => let (a, w) := f (world s) in (a, mkState w (trace s ++ [ev a])).

Definition init (w : W) : State := mkState w [].
End TraceMonad.

Arguments State : clear implicits.
Arguments M : clear implicits.

Declare Scope go_scope.
Delimit Scope go_scope with go.
Notation "x <- m ;; k" := (bind m (fun x => k))
  (at level 100, m at next level, right associativity) : go_scope.
Notation "m ;;; k" := (bind m (fun _ => k))
  (at level 100, right associativity) : go_scope.

(** ** Package [executor] *)

Module Executor.
Import GoInt.

(** [*exec.Cmd] as [exec.Command] and the two methods fill it. *)
Record Cmd {Writer : Type} : Type := mkCmd {
  Path : string;
  Args : list string;
  Dir : string;
  Stdout : option Writer;
  CmdStderr : option Writer
}.
Arguments Cmd : clear implicits.

(** What the runner asks of its surroundings. *)
Record OS {W Writer : Type} : Type := mkOS {
  (* the error result of [fmt.Fprintln(output, line)] *)
  Fprintln : Writer -> string -> W -> option error * W;
  (* [command.Start()] *)
  Start : Cmd Writer -> W -> option error * W;
  (* [command.Wait()] *)
  Wait : Cmd Writer -> W -> option error * W;
  (* [command.Output()]: the bytes of standard output and the error *)
  Output : Cmd Writer -> W -> (string * option error) * W
}.
Arguments OS : clear implicits.

Inductive Event {Writer : Type} : Type :=
| EvFprintln (output : Writer) (line : string) (res : option error)
| EvStart (c : Cmd Writer) (res : option error)
| EvWait (c : Cmd Writer) (res : option error)
| EvOutput (c : Cmd Writer) (res : string * option error).
Arguments Event : clear implicits.

(** Kinds of events, to read a trace by. *)
Definition isFprintln {Writer : Type} (ev : Event Writer) : bool :=
  match ev with EvFprintln _ _ _ => true | _ => false end.

Definition isProcessCall {Writer : Type} (ev : Event Writer) : bool :=
  negb (isFprintln ev).

Record RealExecutor : Type := mkRealExecutor { Verbose : bool }.

Definition NewRealExecutor : RealExecutor := {| Verbose := true |}.

Definition SetVerbose (e : RealExecutor) (verbose : bool) : RealExecutor :=
  {| Verbose := verbose |}.

(** The loop of [summarizedArgs], appending to [result] one argument at a
    time. *)
Definition summarizedArgs (args : list string) : list string :=
  foldl (fun result arg =>
           if len arg >? 30 then result ++ ["..."%string]
           else result ++ [arg])
        [] args.

(** [%v] of a [[]string], as [Fprintln] prints it. *)
Definition fmt_strings (l : list string) : string :=
  "[" +:+ String.concat " " l +:+ "]".

(** [fmt.Fprintln(output, "Executing:", name, summarizedArgs(args), "in",
    workingDir)]: the operands separated by spaces, and a newline. *)
Definition traceLine (name : string) (args : list string)
    (workingDir : string) : string :=
  "Executing:" +:+ " " +:+ name +:+ " " +:+ fmt_strings (summarizedArgs args)
    +:+ " " +:+ "in" +:+ " " +:+ workingDir +:+ newline.

(** [exec.Command(name, args...)]: the program, and [argv] with the program
    name in front of the arguments. *)
Definition Command {Writer} (name : string) (args : list string) : Cmd Writer :=
  {| Path := name; Args := name :: args; Dir := "";
     Stdout := None; CmdStderr := None |}.

Definition setDir {Writer} (c : Cmd Writer) (d : string) : Cmd Writer :=
  {| Path := Path c; Args := Args c; Dir := d;
     Stdout := Stdout c; CmdStderr := CmdStderr c |}.

Definition setStdout {Writer} (c : Cmd Writer) (w : Writer) : Cmd Writer :=
  {| Path := Path c; Args := Args c; Dir := Dir c;
     Stdout := Some w; CmdStderr := CmdStderr c |}.

Definition setStderr {Writer} (c : Cmd Writer) (w : Writer) : Cmd Writer :=
  {| Path := Path c; Args := Args c; Dir := Dir c;
     Stdout := Stdout c; CmdStderr := Some w |}.

(** [fmt.Errorf("error: %w. Stderr: %s", exitErr, stdErr)]. *)
Definition Errorf_exit (exitErr : ExitError) (stdErr : string) : error :=
  wrapError ("error: " +:+ ExitError_Error exitErr +:+ ". Stderr: " +:+ stdErr)
            (exitError exitErr).

Section Run.
Context {W Writer : Type} (os : OS W Writer).
Local Open Scope go_scope.

Definition fprintln (output : Writer) (line : string)
  : M W (Event Writer) (option error) :=
  call (Fprintln os output line) (EvFprintln output line).

Definition start (c : Cmd Writer) : M W (Event Writer) (option error) :=
  call (Start os c) (EvStart c).

Definition wait (c : Cmd Writer) : M W (Event Writer) (option error) :=
  call (Wait os c) (EvWait c).

Definition output (c : Cmd Writer)
  : M W (Event Writer) (string * option error) :=
  call (Output os c) (EvOutput c).

Definition Execute (e : RealExecutor) (out : Writer)
    (workingDir name : string) (args : list string)
  : M W (Event Writer) (option error) :=
  let command :=
    setStderr (setStdout (setDir (Command name args) workingDir) out) out in
  let run : M W (Event Writer) (option error) :=
    serr <- start command ;;
    match serr with
    | Some err => ret (Some err)
    | None =>
        xerr <- wait command ;;
        match xerr with
        | Some err => ret (Some err)
        | None => ret None
        end
    end in
  if Verbose e then
    werr <- fprintln out (traceLine name args workingDir) ;;
    match werr with
    | Some err => ret (Some err)
    | None => run
    end
  else run.

Definition ExecuteAndCapture (e : RealExecutor) (out : Writer)
    (workingDir name : string) (args : list string)
  : M W (Event Writer) (string * option error) :=
  let command := setDir (Command name args) workingDir in
  let run : M W (Event Writer) (string * option error) :=
    r <- output command ;;
    let (commandOutput, err) := r in
    match err with
    | Some (exitError exitErr) =>
        let stdErr := Stderr exitErr in
        ret (stdErr, Some (Errorf_exit exitErr stdErr))
    | Some other => ret (commandOutput, Some other)
    | None => ret (commandOutput, None)
    end in
  if Verbose e then
    werr <- fprintln out (traceLine name args workingDir) ;;
    match werr with
    | Some err => ret (""%string, Some err)
    | None => run
    end
  else run.

End Run.

(** A concrete surrounding to run the two methods in.  Writers are file
    descriptors, of which 9 is a closed pipe; the world counts the processes
    spawned so far.  Program [nosuch] is not installed, [false] exits with
    status 1, [gh] exits with status 1 after a message on standard error, and
    every other program prints [ok] and exits with status 0. *)
Definition demoOS : OS nat nat := {|
  Fprintln := fun out _ n =>
    (if (out =? 9)%nat then Some (errorString "write: broken pipe") else None, n);
  Start := fun c n =>
    (if String.eqb (Path c) "nosuch"
     then Some (errorString "exec: nosuch: executable file not found in $PATH")
     else None, S n);
  Wait := fun c n =>
    (if String.eqb (Path c) "false"
     then Some (exitError (mkExitError "exit status 1" ""))
     else None, n);
  Output := fun c n =>
    (if String.eqb (Path c) "nosuch"
     then (""%string,
           Some (errorString "exec: nosuch: executable file not found in $PATH"))
     else if String.eqb (Path c) "gh"
     then (""%string,
           Some (exitError (mkExitError "exit status 1" "no pull requests found")))
     else ("ok"%string, None), S n)
|}.

End Executor.

(** ** Package [update_prs] *)

Module UpdatePRs.
Import GoInt.

(** [campaign.Repo]: the two things the engine reads from it, the field
    [FullRepoName] and the result of the method [FullRepoPath()]. *)
Record Repo : Type := mkRepo {
  FullRepoName : string;
  FullRepoPath : string
}.

(** [campaign.Campaign] as [OpenCampaign] returns it. *)
Record Campaign : Type := mkCampaign {
  Name : string;
  Repos : list Repo
}.

(** An activity of the logger: the message it was started with. *)
Record Activity : Type := mkActivity {
  format : string;
  operands : list string
}.

(** Operands of the summary line. *)
Inductive operand : Type :=
| Int (n : Z)
| Str (s : string).

(** The calls into package [colors], kept as terms. *)
Inductive colored : Type :=
| Normal
| Green (a : list operand)
| Yellow (a : list operand)
| Red (a : list operand).

Inductive Event : Type :=
| EvStartActivity (a : Activity)
| EvEndWithSuccess (a : Activity)
| EvEndWithFailure (a : Activity) (err : error)
| EvEndWithWarning (a : Activity) (err : error)
| EvEndWithWarningf (a : Activity) (fmt : string) (args : list string)
| EvErrorf (fmt : string) (err : error)
| EvSuccessf (fmt : string) (args : list colored)
| EvWarnf (fmt : string) (args : list colored)
| EvOpenCampaign (res : Campaign + error)
| EvAskConfirm (question : string) (answer : bool)
| EvStat (path : string) (res : option error)
| EvClosePullRequest (output : Activity) (workingDir branchName : string)
    (res : option error).

(** Kinds of events, to read a trace by. *)
Definition isStartActivity (ev : Event) : bool :=
  match ev with EvStartActivity _ => true | _ => false end.

Definition isAskConfirm (ev : Event) : bool :=
  match ev with EvAskConfirm _ _ => true | _ => false end.

Definition isSummary (ev : Event) : bool :=
  match ev with EvSuccessf _ _ | EvWarnf _ _ => true | _ => false end.

Definition isClosePullRequest (ev : Event) : bool :=
  match ev with EvClosePullRequest _ _ _ _ => true | _ => false end.

Definition isEndWithSuccess (ev : Event) : bool :=
  match ev with EvEndWithSuccess _ => true | _ => false end.

Definition isEndWithFailure (ev : Event) : bool :=
  match ev with EvEndWithFailure _ _ => true | _ => false end.

Definition isEndWithWarning (ev : Event) : bool :=
  match ev with
  | EvEndWithWarning _ _ | EvEndWithWarningf _ _ _ => true
  | _ => false
  end.

(** The path of a call of [os.Stat]. *)
Definition statPath (ev : Event) : option string :=
  match ev with EvStat path _ => Some path | _ => None end.

(** The collaborators of the command: [campaign.OpenCampaign], the prompt
    [p], [os.Stat] (of which only the error is used) and the client [gh]. *)
Record Env {W : Type} : Type := mkEnv {
  OpenCampaign : W -> (Campaign + error) * W;
  AskConfirm : string -> W -> bool * W;
  Stat : string -> W -> option error * W;
  ClosePullRequest : Activity -> string -> string -> W -> option error * W
}.
Arguments Env : clear implicits.

(** The package variables [closeFlag] and [yesFlag]. *)
Record Flags : Type := mkFlags {
  closeFlag : bool;
  yesFlag : bool
}.

(** [os.IsNotExist]: the error is a path error whose cause is [ENOENT]. *)
Definition IsNotExist (err : option error) : bool :=
  match err with
  | Some (pathError _ _ ENOENT) => true
  | _ => false
  end.

(** [b[v]] on a [map[bool]int]: a missing key reads as zero. *)
Definition index (b : gmap bool Z) (v : bool) : Z := default 0 (b !! v).

Definition onlyOne (args : list bool) : bool :=
  let b : gmap bool Z := <[true := 0]> (<[false := 0]> ∅) in
  let b := foldl (fun b v => <[v := incr (index b v)]> b) b args in
  index b true =? 1.

Definition validateFlags (closeFlag : bool) : option error :=
  if negb (onlyOne [closeFlag]) then
    errors_New "update-prs needs one and only one action flag"
  else None.

(** The three local counters of [runClose]. *)
Record Counters : Type := mkCounters {
  doneCount : Z;
  skippedCount : Z;
  errorCount : Z
}.

Definition zero : Counters := mkCounters 0 0 0.

Definition incrDone (c : Counters) : Counters :=
  mkCounters (incr (doneCount c)) (skippedCount c) (errorCount c).

Definition incrSkipped (c : Counters) : Counters :=
  mkCounters (doneCount c) (incr (skippedCount c)) (errorCount c).

Definition incrError (c : Counters) : Counters :=
  mkCounters (doneCount c) (skippedCount c) (incr (errorCount c)).

(** [fmt.Sprintf("Close all PRs from the %s campaign?", dir.Name)]. *)
Definition confirmQuestion (name : string) : string :=
  "Close all PRs from the " +:+ name +:+ " campaign?".

(** The summary line, after the loop. *)
Definition summary (c : Counters) : Event :=
  if errorCount c =? 0 then
    EvSuccessf ("turbolift update-prs completed %s(%s, %s)" +:+ newline)
      [Normal; Green [Int (doneCount c); Str " OK"];
       Yellow [Int (skippedCount c); Str " skipped"]]
  else
    EvWarnf ("turbolift update-prs completed with %s %s(%s, %s, %s)" +:+ newline)
      [Red [Str "errors"]; Normal; Green [Int (doneCount c); Str " OK"];
       Yellow [Int (skippedCount c); Str " skipped"];
       Red [Int (errorCount c); Str " errored"]].

Section Run.
Context {W : Type} (env : Env W).
Local Open Scope go_scope.

Definition openCampaign : M W Event (Campaign + error) :=
  call (OpenCampaign env) EvOpenCampaign.

Definition askConfirm (question : string) : M W Event bool :=
  call (AskConfirm env question) (EvAskConfirm question).

Definition stat (path : string) : M W Event (option error) :=
  call (Stat env path) (EvStat path).

Definition closePullRequest (output : Activity) (workingDir branchName : string)
  : M W Event (option error) :=
  call (ClosePullRequest env output workingDir branchName)
       (EvClosePullRequest output workingDir branchName).

(** The body of the loop of [runClose], for one repository. *)
Definition closeRepo (campaignName : string) (repo : Repo) (c : Counters)
  : M W Event Counters :=
  let closeActivity := mkActivity "Closing PR in %s" [FullRepoName repo] in
  emit (EvStartActivity closeActivity) ;;;
  err <- stat (FullRepoPath repo) ;;
  if IsNotExist err then
    emit (EvEndWithWarningf closeActivity
                 "Directory %s does not exist - has it been cloned?"
                 [FullRepoPath repo]) ;;;
    ret (incrSkipped c)
  else
    err <- closePullRequest closeActivity (FullRepoPath repo) campaignName ;;
    match err with
    | Some (NoPRFoundError d) =>
        emit (EvEndWithWarning closeActivity (NoPRFoundError d)) ;;;
        ret (incrSkipped c)
    | Some other =>
        emit (EvEndWithFailure closeActivity other) ;;;
        ret (incrError c)
    | None =>
        emit (EvEndWithSuccess closeActivity) ;;;
        ret (incrDone c)
    end.

(** [for _, repo := range dir.Repos]. *)
Fixpoint closeLoop (campaignName : string) (repos : list Repo) (c : Counters)
  : M W Event Counters :=
  match repos with
  | [] => ret c
  | repo :: rest =>
      c' <- closeRepo campaignName repo c ;;
      closeLoop campaignName rest c'
  end.

Definition runClose (flags : Flags) : M W Event unit :=
  let readCampaignActivity := mkActivity "Reading campaign data" [] in
  emit (EvStartActivity readCampaignActivity) ;;;
  r <- openCampaign ;;
  match r with
  | inr err => emit (EvEndWithFailure readCampaignActivity err)
  | inl dir =>
      emit (EvEndWithSuccess readCampaignActivity) ;;;
      let proceed : M W Event unit :=
        c <- closeLoop (Name dir) (Repos dir) zero ;;
        emit (summary c) in
      if negb (yesFlag flags) then
        ok <- askConfirm (confirmQuestion (Name dir)) ;;
        if negb ok then ret tt else proceed
      else proceed
  end.

Definition run (flags : Flags) : M W Event unit :=
  match validateFlags (closeFlag flags) with
  | Some err => emit (EvErrorf "Error while parsing the flags: %v" err)
  | None => if closeFlag flags then runClose flags else ret tt
  end.

End Run.

(** A concrete campaign to run the command on: three repositories, of which
    [org/A] has not been cloned and [org/C] makes the client fail.  The world
    is the list of working copies whose pull request has been closed; closing
    one a second time finds no pull request. *)
Definition repoA : Repo := mkRepo "org/A" "work/org/A".
Definition repoB : Repo := mkRepo "org/B" "work/org/B".
Definition repoC : Repo := mkRepo "org/C" "work/org/C".

Definition renameFoo : Campaign := mkCampaign "rename-foo" [repoA; repoB; repoC].

Definition demoEnv (answer : bool) : Env (list string) := {|
  OpenCampaign := fun w => (inl renameFoo, w);
  AskConfirm := fun _ w => (answer, w);
  Stat := fun path w =>
    (if String.eqb path "work/org/A" then Some (pathError "stat" path ENOENT)
     else None, w);
  ClosePullRequest := fun _ dir _ w =>
    if String.eqb dir "work/org/C" then (Some (errorString "exit status 1"), w)
    else if existsb (String.eqb dir) w then (Some (NoPRFoundError dir), w)
    else (None, dir :: w)
|}.

(** Surroundings that answer every call the same way and have no state:
    [os.Stat] always returns [statErr] and the client always returns
    [closeErr]. *)
Definition scriptedEnv (campaign : Campaign + error) (answer : bool)
    (statErr closeErr : option error) : Env unit := {|
  OpenCampaign := fun w => (campaign, w);
  AskConfirm := fun _ w => (answer, w);
  Stat := fun _ w => (statErr, w);
  ClosePullRequest := fun _ _ _ w => (closeErr, w)
|}.

End UpdatePRs.

(** * Properties *)

(** ** Machine integers *)

Module GoIntFacts.
Import GoInt.

Lemma wrap_small z : minInt <= z <= maxInt -> wrap z = z.
Proof.
  unfold wrap, minInt, maxInt. intros Hz.
  rewrite Z.mod_small; lia.
Qed.

Lemma incr_below x : 0 <= x < maxInt -> incr x = x + 1.
Proof.
  intros Hx. unfold incr. apply wrap_small.
  unfold minInt, maxInt in *. lia.
Qed.

End GoIntFacts.

(** ** The command runner *)

Module ExecutorSpec.
Import GoInt Executor.

(** Unfold one method down to the calls of the world, and split on the
    result of each call in turn. *)
Ltac unfold_run :=
  unfold Execute, ExecuteAndCapture, fprintln, start, wait, output,
    bind, call, ret, init; simpl.

Ltac split_call :=
  match goal with
  | |- context [Fprintln ?os ?o ?l ?w] =>
      destruct (Fprintln os o l w) as [[?err|] ?w] eqn:?Hprint; simpl
  | |- context [Start ?os ?c ?w] =>
      destruct (Start os c w) as [[?err|] ?w] eqn:?Hstart; simpl
  | |- context [Wait ?os ?c ?w] =>
      destruct (Wait os c w) as [[?err|] ?w] eqn:?Hwait; simpl
  | |- context [Output ?os ?c ?w] =>
      destruct (Output os c w) as [[?out [[| ?x | | |]|]] ?w] eqn:?Houtput; simpl
  end.

Ltac run_cases e := unfold_run; destruct (Verbose e); simpl; repeat split_call.

(** The loop of [summarizedArgs] maps each argument to itself or to the
    placeholder, whatever [result] holds when it starts. *)
Lemma summarize_from (acc args : list string) :
  foldl (fun result arg =>
           if len arg >? 30 then result ++ ["..."%string] else result ++ [arg])
        acc args
  = acc ++ ((fun arg => if len arg >? 30 then "..."%string else arg) <$> args).
Proof.
  revert acc. induction args as [|arg args IH]; intros acc; simpl.
  - by rewrite app_nil_r.
  - rewrite IH. destruct (len arg >? 30); by rewrite <- app_assoc.
Qed.

Lemma summarizedArgs_fmap (args : list string) :
  summarizedArgs args
  = (fun arg => if len arg >? 30 then "..."%string else arg) <$> args.
Proof. unfold summarizedArgs. by rewrite summarize_from. Qed.

(** C3. The redacted list has as many arguments as the real one, in the same
    order: at each position an argument of at most 30 bytes stands as it is
    and a longer one is the placeholder.  The trace line is printed from the
    redacted list, and every call that starts, awaits or runs the process
    carries the program name followed by the real arguments. *)
Theorem summarizedArgs_redacts_trace_only (args : list string) :
  length (summarizedArgs args) = length args /\
  (forall i : nat,
     summarizedArgs args !! i
     = (fun arg => if decide (len arg <= 30) then arg else "..."%string)
         <$> (args !! i)) /\
  (forall (W Writer : Type) (os : OS W Writer) (e : RealExecutor)
          (out : Writer) (workingDir name : string) (w : W),
     let spawned_with_real_args (ev : Event Writer) :=
       match ev with
       | EvFprintln _ line _ =>
           line = "Executing: " +:+ name +:+ " "
                    +:+ fmt_strings (summarizedArgs args)
                    +:+ " in " +:+ workingDir +:+ newline
       | EvStart c _ | EvWait c _ | EvOutput c _ =>
           Path c = name /\ Args c = name :: args
       end in
     Forall spawned_with_real_args
       (trace (snd (Execute os e out workingDir name args (init w)))) /\
     Forall spawned_with_real_args
       (trace (snd (ExecuteAndCapture os e out workingDir name args (init w))))).
Proof.
  split; [|split].
  - by rewrite summarizedArgs_fmap, length_fmap.
  - intros i. rewrite summarizedArgs_fmap, list_lookup_fmap.
    destruct (args !! i) as [arg|]; simpl; [|done].
    f_equal. destruct (Z.gtb_spec (len arg) 30); case_decide; (done || lia).
  - intros W Writer os e out workingDir name w spawned.
    split; run_cases e; repeat constructor.
Qed.

(** Once [Output] has run, the result of [ExecuteAndCapture] is decided by
    the dynamic type of the error of [Output]. *)
Lemma ExecuteAndCapture_spawned {W Writer : Type} (os : OS W Writer)
    (e : RealExecutor) (out : Writer) (workingDir name : string)
    (args : list string) (w : W) (c : Cmd Writer) (stdout : string)
    (res : option error) :
  In (EvOutput c (stdout, res))
     (trace (snd (ExecuteAndCapture os e out workingDir name args (init w)))) ->
  fst (ExecuteAndCapture os e out workingDir name args (init w))
  = match res with
    | Some (exitError exitErr) =>
        (Stderr exitErr, Some (Errorf_exit exitErr (Stderr exitErr)))
    | _ => (stdout, res)
    end.
Proof.
  run_cases e; intros Hin;
    repeat (destruct Hin as [Hin|Hin]; try discriminate Hin);
    try contradiction; by inversion Hin.
Qed.

(** C4. When the process was run and exited with a non-zero status, the text
    returned is the standard error held by the exit error, and the error
    returned wraps the exit error under the message
    [error: <state>. Stderr: <standard error>]; when the process succeeded,
    the text returned is its standard output and the error is nil.  (Any
    other error of [Output] comes back as it is, with the standard output.) *)
Theorem ExecuteAndCapture_exit_status_and_success {W Writer : Type}
    (os : OS W Writer) (e : RealExecutor) (out : Writer)
    (workingDir name : string) (args : list string) (w : W)
    (c : Cmd Writer) (stdout : string) (res : option error) :
  In (EvOutput c (stdout, res))
     (trace (snd (ExecuteAndCapture os e out workingDir name args (init w)))) ->
  match res with
  | Some (exitError exitErr) =>
      fst (ExecuteAndCapture os e out workingDir name args (init w))
      = (Stderr exitErr,
         Some (wrapError ("error: " +:+ ProcessState exitErr +:+ ". Stderr: "
                            +:+ Stderr exitErr)
                         (exitError exitErr)))
  | Some other =>
      fst (ExecuteAndCapture os e out workingDir name args (init w))
      = (stdout, Some other)
  | None =>
      fst (ExecuteAndCapture os e out workingDir name args (init w))
      = (stdout, None)
  end.
Proof.
  intros Hin. rewrite (ExecuteAndCapture_spawned _ _ _ _ _ _ _ _ _ _ Hin).
  by destruct res as [[]|].
Qed.

Lemma ExecuteAndCapture_exit_status_and_success_witness :
  fst (ExecuteAndCapture demoOS NewRealExecutor 1%nat "work/org/B" "gh"
         ["pr"; "close"; "rename-foo"]%string (init 0%nat))
  = ("no pull requests found"%string,
     Some (wrapError "error: exit status 1. Stderr: no pull requests found"
             (exitError (mkExitError "exit status 1" "no pull requests found")))).
Proof.
  apply (ExecuteAndCapture_exit_status_and_success demoOS NewRealExecutor
           1%nat "work/org/B" "gh" ["pr"; "close"; "rename-foo"]%string 0%nat
           (setDir (Command "gh" ["pr"; "close"; "rename-foo"]%string) "work/org/B")
           ""
           (Some (exitError (mkExitError "exit status 1" "no pull requests found")))).
  simpl. right. left. reflexivity.
Defined.

(** C10. When the process was run and [Output] failed with an error that is
    not an exit error, the text returned is the standard output that [Output]
    gave back and the error is returned as it is. *)
Theorem ExecuteAndCapture_other_failure {W Writer : Type}
    (os : OS W Writer) (e : RealExecutor) (out : Writer)
    (workingDir name : string) (args : list string) (w : W)
    (c : Cmd Writer) (stdout : string) (err : error) :
  In (EvOutput c (stdout, Some err))
     (trace (snd (ExecuteAndCapture os e out workingDir name args (init w)))) ->
  (forall exitErr : ExitError, err <> exitError exitErr) ->
  fst (ExecuteAndCapture os e out workingDir name args (init w))
  = (stdout, Some err).
Proof.
  intros Hin Hother. rewrite (ExecuteAndCapture_spawned _ _ _ _ _ _ _ _ _ _ Hin).
  destruct err; try reflexivity. by destruct (Hother e0).
Qed.

Lemma ExecuteAndCapture_other_failure_witness :
  fst (ExecuteAndCapture demoOS NewRealExecutor 1%nat "work/org/B" "nosuch"
         ["pr"]%string (init 0%nat))
  = (""%string,
     Some (errorString "exec: nosuch: executable file not found in $PATH")).
Proof.
  apply (ExecuteAndCapture_other_failure demoOS NewRealExecutor
           1%nat "work/org/B" "nosuch" ["pr"]%string 0%nat
           (setDir (Command "nosuch" ["pr"]%string) "work/org/B")).
  - simpl. right. left. reflexivity.
  - intros exitErr. discriminate.
Defined.

(** C9. With verbose mode on, when writing the trace line fails, both methods
    return the error of the write ([ExecuteAndCapture] with an empty text),
    and the write is the only call made: the process is neither started nor
    run. *)
Theorem trace_write_failure_returns_before_spawn {W Writer : Type}
    (os : OS W Writer) (e : RealExecutor) (out : Writer)
    (workingDir name : string) (args : list string) (w w' : W) (err : error) :
  Verbose e = true ->
  Fprintln os out (traceLine name args workingDir) w = (Some err, w') ->
  Execute os e out workingDir name args (init w)
  = (Some err,
     mkState w' [EvFprintln out (traceLine name args workingDir) (Some err)]) /\
  ExecuteAndCapture os e out workingDir name args (init w)
  = ((""%string, Some err),
     mkState w' [EvFprintln out (traceLine name args workingDir) (Some err)]).
Proof.
  intros Hverbose Hwrite.
  unfold Execute, ExecuteAndCapture, fprintln, bind, call, init.
  rewrite Hverbose. cbn [world trace]. by rewrite Hwrite.
Qed.

Lemma trace_write_failure_returns_before_spawn_witness :
  Execute demoOS NewRealExecutor 9%nat "." "true" [] (init 0%nat)
  = (Some (errorString "write: broken pipe"),
     mkState 0%nat [EvFprintln 9%nat (traceLine "true" [] ".")
                      (Some (errorString "write: broken pipe"))]) /\
  ExecuteAndCapture demoOS NewRealExecutor 9%nat "." "true" [] (init 0%nat)
  = ((""%string, Some (errorString "write: broken pipe")),
     mkState 0%nat [EvFprintln 9%nat (traceLine "true" [] ".")
                      (Some (errorString "write: broken pipe"))]).
Proof.
  apply (trace_write_failure_returns_before_spawn demoOS NewRealExecutor
           9%nat "." "true" [] 0%nat 0%nat (errorString "write: broken pipe")).
  - reflexivity.
  - reflexivity.
Defined.

(** C5, as stated, fails: with verbose mode on and a sink that rejects the
    trace line, [Execute] returns an error although no process failed to
    start or exited with a non-zero status (none was started). *)
Lemma Execute_error_without_process_failure :
  let run := Execute demoOS NewRealExecutor 9%nat "." "true" [] (init 0%nat) in
  ~ (fst run <> None <->
     (exists c err, In (EvStart c (Some err)) (trace (snd run))) \/
     (exists c exitErr,
        In (EvWait c (Some (exitError exitErr))) (trace (snd run)))).
Proof.
  simpl. intros [Hfails _].
  assert (Some (errorString "write: broken pipe") <> None) as Herr
    by discriminate.
  destruct (Hfails Herr) as [(c & err & Hin) | (c & exitErr & Hin)];
    repeat (destruct Hin as [Hin|Hin]; try discriminate Hin);
    contradiction.
Qed.

(** C5, amended. [Execute] returns a non-nil error exactly when one of its
    three steps fails: the write of the trace line (attempted in verbose mode
    only), the start of the process, or the wait for it, of which a non-zero
    exit status is one failure; otherwise it returns nil. *)
Theorem Execute_error_iff_a_step_fails {W Writer : Type}
    (os : OS W Writer) (e : RealExecutor) (out : Writer)
    (workingDir name : string) (args : list string) (w : W) :
  let run := Execute os e out workingDir name args (init w) in
  (fst run <> None <->
     (exists line err, In (EvFprintln out line (Some err)) (trace (snd run))) \/
     (exists c err, In (EvStart c (Some err)) (trace (snd run))) \/
     (exists c err, In (EvWait c (Some err)) (trace (snd run)))) /\
  (if Verbose e then True
   else Forall (fun ev => match ev with
                          | EvFprintln _ _ _ => False
                          | _ => True
                          end) (trace (snd run))).
Proof.
  run_cases e; split; try exact I; try (repeat constructor; fail);
    (split; [intros Hfails | intros Hin Hnil]);
    try (exfalso; by apply Hfails);
    try (simpl; eauto 10; fail);
    try discriminate Hnil;
    destruct Hin as [(? & ? & Hin) | [(? & ? & Hin) | (? & ? & Hin)]];
    repeat (destruct Hin as [Hin|Hin]; try discriminate Hin);
    contradiction.
Qed.

End ExecutorSpec.

(** ** The batch engine *)

Module UpdatePRsSpec.
Import GoInt GoIntFacts UpdatePRs.

Ltac unfold_engine :=
  unfold closeRepo, openCampaign, askConfirm, stat, closePullRequest,
    bind, call, emit, ret; simpl.

(** What one turn of the loop does, from any state, by the results of
    [os.Stat] and of the client. *)
Lemma closeRepo_cases {W : Type} (env : Env W) (campaignName : string)
    (repo : Repo) (c : Counters) (s : State W Event) :
  let closeActivity := mkActivity "Closing PR in %s" [FullRepoName repo] in
  let path := FullRepoPath repo in
  let (serr, w1) := Stat env path (world s) in
  let (cerr, w2) := ClosePullRequest env closeActivity path campaignName w1 in
  let begun := [EvStartActivity closeActivity; EvStat path serr] in
  let called :=
    begun ++ [EvClosePullRequest closeActivity path campaignName cerr] in
  closeRepo env campaignName repo c s
  = if IsNotExist serr then
      (incrSkipped c,
       mkState w1 (trace s ++ begun ++
         [EvEndWithWarningf closeActivity
            "Directory %s does not exist - has it been cloned?" [path]]))
    else
      match cerr with
      | Some (NoPRFoundError d) =>
          (incrSkipped c,
           mkState w2 (trace s ++ called ++
             [EvEndWithWarning closeActivity (NoPRFoundError d)]))
      | Some other =>
          (incrError c,
           mkState w2 (trace s ++ called ++ [EvEndWithFailure closeActivity other]))
      | None =>
          (incrDone c,
           mkState w2 (trace s ++ called ++ [EvEndWithSuccess closeActivity]))
      end.
Proof.
  unfold_engine.
  destruct (Stat env (FullRepoPath repo) (world s)) as [serr w1]; simpl.
  destruct (ClosePullRequest env _ (FullRepoPath repo) campaignName w1)
    as [cerr w2] eqn:Hclose; simpl.
  destruct (IsNotExist serr); simpl.
  - by rewrite <- !app_assoc.
  - rewrite Hclose. destruct cerr as [[]|]; simpl; by rewrite <- !app_assoc.
Qed.

(** One turn of the loop starts one activity, extends the trace, bumps one
    counter, and neither asks for confirmation nor prints a summary. *)
Lemma closeRepo_turn {W : Type} (env : Env W) (campaignName : string)
    (repo : Repo) (c : Counters) (s : State W Event) :
  exists c' w' new,
    closeRepo env campaignName repo c s = (c', mkState w' (trace s ++ new)) /\
    (c' = incrDone c \/ c' = incrSkipped c \/ c' = incrError c) /\
    List.filter isStartActivity new
    = [EvStartActivity (mkActivity "Closing PR in %s" [FullRepoName repo])] /\
    List.filter isAskConfirm new = [] /\
    List.filter isSummary new = [].
Proof.
  pose proof (closeRepo_cases env campaignName repo c s) as Hcases.
  simpl in Hcases.
  destruct (Stat env (FullRepoPath repo) (world s)) as [serr w1].
  destruct (ClosePullRequest env _ (FullRepoPath repo) campaignName w1)
    as [cerr w2].
  rewrite Hcases.
  destruct (IsNotExist serr); [|destruct cerr as [[]|]];
    eexists _, _, _; (split; [reflexivity|]); simpl; auto.
Qed.

(** The loop over a concatenation is the loop over the first part followed
    by the loop over the second. *)
Lemma closeLoop_app {W : Type} (env : Env W) (campaignName : string)
    (pre post : list Repo) (c : Counters) (s : State W Event) :
  closeLoop env campaignName (pre ++ post) c s
  = let (c1, s1) := closeLoop env campaignName pre c s in
    closeLoop env campaignName post c1 s1.
Proof.
  revert c s. induction pre as [|repo pre IH]; intros c s; simpl.
  - reflexivity.
  - unfold bind. destruct (closeRepo env campaignName repo c s) as [c1 s1].
    apply IH.
Qed.

Lemma closeLoop_snoc {W : Type} (env : Env W) (campaignName : string)
    (pre : list Repo) (repo : Repo) (c : Counters) (s : State W Event) :
  closeLoop env campaignName (pre ++ [repo]) c s
  = let (c1, s1) := closeLoop env campaignName pre c s in
    closeRepo env campaignName repo c1 s1.
Proof.
  rewrite closeLoop_app.
  destruct (closeLoop env campaignName pre c s) as [c1 s1]; simpl.
  unfold bind, ret. by destruct (closeRepo env campaignName repo c1 s1).
Qed.

(** The loop starts one activity per repository, in the order of the list,
    and neither asks for confirmation nor prints a summary. *)
Lemma closeLoop_trace {W : Type} (env : Env W) (campaignName : string)
    (repos : list Repo) (c : Counters) (s : State W Event) :
  exists c' w' new,
    closeLoop env campaignName repos c s = (c', mkState w' (trace s ++ new)) /\
    List.filter isStartActivity new
    = map (fun repo =>
             EvStartActivity (mkActivity "Closing PR in %s" [FullRepoName repo]))
          repos /\
    List.filter isAskConfirm new = [] /\
    List.filter isSummary new = [].
Proof.
  revert c s. induction repos as [|repo repos IH]; intros c s; simpl.
  - exists c, (world s), []. rewrite app_nil_r. by destruct s.
  - unfold bind.
    destruct (closeRepo_turn env campaignName repo c s)
      as (c1 & w1 & new1 & -> & _ & Hstart1 & Hask1 & Hsum1).
    destruct (IH c1 (mkState w1 (trace s ++ new1)))
      as (c2 & w2 & new2 & -> & Hstart2 & Hask2 & Hsum2).
    exists c2, w2, (new1 ++ new2). simpl.
    rewrite !List.filter_app, Hstart1, Hstart2, Hask1, Hask2, Hsum1, Hsum2.
    by rewrite <- app_assoc.
Qed.

(** As long as the list fits a Go slice, no counter wraps around: the
    counters stay non-negative and their sum grows by the number of
    repositories. *)
Lemma closeLoop_sum {W : Type} (env : Env W) (campaignName : string)
    (repos : list Repo) (c : Counters) (s : State W Event) :
  0 <= doneCount c -> 0 <= skippedCount c -> 0 <= errorCount c ->
  doneCount c + skippedCount c + errorCount c + Z.of_nat (length repos)
    <= maxInt ->
  let c' := fst (closeLoop env campaignName repos c s) in
  doneCount c <= doneCount c' /\ skippedCount c <= skippedCount c' /\
  errorCount c <= errorCount c' /\
  doneCount c' + skippedCount c' + errorCount c'
  = doneCount c + skippedCount c + errorCount c + Z.of_nat (length repos).
Proof.
  revert c s. induction repos as [|repo repos IH]; intros c s Hd Hs He Hfit.
  - simpl. lia.
  - simpl in *. unfold bind.
    destruct (closeRepo_turn env campaignName repo c s)
      as (c1 & w1 & new1 & -> & Hc1 & _).
    specialize (IH c1 (mkState w1 (trace s ++ new1))).
    destruct Hc1 as [-> | [-> | ->]]; simpl in IH;
      rewrite incr_below in IH by lia; lia.
Qed.

(** C1. For every repository of the campaign, when the loop reaches it: if
    [os.Stat] of its clone directory reports that it does not exist, the
    repository is skipped (skippedCount goes up by one) and the client is not
    called; otherwise the client is called, and a [NoPRFoundError] skips the
    repository, any other error counts it as errored (errorCount goes up by
    one), and no error counts it as done (doneCount goes up by one). *)
Theorem closeLoop_classifies_each_repository {W : Type} (env : Env W)
    (campaignName : string) (pre : list Repo) (repo : Repo) (post : list Repo)
    (w : W) :
  Z.of_nat (length (pre ++ repo :: post)) <= maxInt ->
  let closeActivity := mkActivity "Closing PR in %s" [FullRepoName repo] in
  let path := FullRepoPath repo in
  let (c, s) := closeLoop env campaignName pre zero (init w) in
  let (serr, w1) := Stat env path (world s) in
  let (cerr, w2) := ClosePullRequest env closeActivity path campaignName w1 in
  let begun := [EvStartActivity closeActivity; EvStat path serr] in
  let called :=
    begun ++ [EvClosePullRequest closeActivity path campaignName cerr] in
  closeLoop env campaignName (pre ++ [repo]) zero (init w)
  = if IsNotExist serr then
      (mkCounters (doneCount c) (skippedCount c + 1) (errorCount c),
       mkState w1 (trace s ++ begun ++
         [EvEndWithWarningf closeActivity
            "Directory %s does not exist - has it been cloned?" [path]]))
    else
      match cerr with
      | Some (NoPRFoundError d) =>
          (mkCounters (doneCount c) (skippedCount c + 1) (errorCount c),
           mkState w2 (trace s ++ called ++
             [EvEndWithWarning closeActivity (NoPRFoundError d)]))
      | Some other =>
          (mkCounters (doneCount c) (skippedCount c) (errorCount c + 1),
           mkState w2 (trace s ++ called ++ [EvEndWithFailure closeActivity other]))
      | None =>
          (mkCounters (doneCount c + 1) (skippedCount c) (errorCount c),
           mkState w2 (trace s ++ called ++ [EvEndWithSuccess closeActivity]))
      end.
Proof.
  intros Hfit. simpl. rewrite closeLoop_snoc.
  rewrite length_app in Hfit. simpl in Hfit.
  pose proof (closeLoop_sum env campaignName pre zero (init w)) as Hsum.
  simpl in Hsum.
  destruct (closeLoop env campaignName pre zero (init w)) as [c s].
  simpl in Hsum.
  destruct Hsum as (Hd & Hs & He & Hsum); [lia..|].
  pose proof (closeRepo_cases env campaignName repo c s) as Hcases.
  simpl in Hcases.
  destruct (Stat env (FullRepoPath repo) (world s)) as [serr w1].
  destruct (ClosePullRequest env _ (FullRepoPath repo) campaignName w1)
    as [cerr w2].
  rewrite Hcases. unfold incrSkipped, incrError, incrDone.
  rewrite !incr_below by lia.
  reflexivity.
Qed.

Lemma closeLoop_classifies_each_repository_witness :
  closeLoop (demoEnv true) "rename-foo" [repoA; repoB; repoC] zero (init [])
  = (mkCounters 1 1 1,
     mkState ["work/org/B"%string]
       (trace (snd (closeLoop (demoEnv true) "rename-foo" [repoA; repoB] zero
                      (init [])))
        ++ [EvStartActivity (mkActivity "Closing PR in %s" ["org/C"%string]);
            EvStat "work/org/C" None;
            EvClosePullRequest (mkActivity "Closing PR in %s" ["org/C"%string])
              "work/org/C" "rename-foo" (Some (errorString "exit status 1"));
            EvEndWithFailure (mkActivity "Closing PR in %s" ["org/C"%string])
              (errorString "exit status 1")])).
Proof.
  apply (closeLoop_classifies_each_repository (demoEnv true) "rename-foo"
           [repoA; repoB] repoC [] []).
  unfold maxInt. simpl. lia.
Defined.

(** C2. When the loop is over, the three counters add up to the number of
    repositories: one activity was started per repository, in the order of
    the list, and each turn raised exactly one counter by one and left the
    two others as they were. *)
Theorem closeLoop_counts_every_repository {W : Type} (env : Env W)
    (campaignName : string) (repos : list Repo) (w : W) :
  Z.of_nat (length repos) <= maxInt ->
  let (c, s) := closeLoop env campaignName repos zero (init w) in
  doneCount c + skippedCount c + errorCount c = Z.of_nat (length repos) /\
  List.filter isStartActivity (trace s)
  = map (fun repo =>
           EvStartActivity (mkActivity "Closing PR in %s" [FullRepoName repo]))
        repos /\
  forall (pre : list Repo) (repo : Repo) (post : list Repo),
    repos = pre ++ repo :: post ->
    let before := fst (closeLoop env campaignName pre zero (init w)) in
    let after := fst (closeLoop env campaignName (pre ++ [repo]) zero (init w)) in
    0 <= doneCount before /\ 0 <= skippedCount before /\
    0 <= errorCount before /\
    (after = mkCounters (doneCount before + 1) (skippedCount before)
                        (errorCount before) \/
     after = mkCounters (doneCount before) (skippedCount before + 1)
                        (errorCount before) \/
     after = mkCounters (doneCount before) (skippedCount before)
                        (errorCount before + 1)).
Proof.
  intros Hfit.
  pose proof (closeLoop_sum env campaignName repos zero (init w)) as Hsum.
  destruct (closeLoop_trace env campaignName repos zero (init w))
    as (c & w' & new & Hrun & Hstart & _).
  rewrite Hrun in *. simpl in *.
  destruct Hsum as (_ & _ & _ & Hsum); [lia..|].
  split; [lia|]. split; [done|].
  intros pre repo post ->. rewrite closeLoop_snoc.
  rewrite length_app in Hfit. simpl in Hfit.
  pose proof (closeLoop_sum env campaignName pre zero (init w)) as Hpre.
  destruct (closeLoop env campaignName pre zero (init w)) as [c1 s1].
  simpl in Hpre. destruct Hpre as (Hd & Hs & He & Hpre); [lia..|].
  destruct (closeRepo_turn env campaignName repo c1 s1)
    as (c2 & w2 & new2 & -> & Hc2 & _).
  simpl. repeat (split; [lia|]).
  unfold incrDone, incrSkipped, incrError in Hc2.
  rewrite !incr_below in Hc2 by lia. exact Hc2.
Qed.

Lemma closeLoop_counts_every_repository_witness :
  let (c, s) :=
    closeLoop (demoEnv true) "rename-foo" [repoA; repoB; repoC] zero (init []) in
  doneCount c + skippedCount c + errorCount c = 3.
Proof.
  pose proof (closeLoop_counts_every_repository (demoEnv true) "rename-foo"
                [repoA; repoB; repoC] []) as Hcounts.
  simpl in Hcounts. simpl. apply Hcounts. unfold maxInt. lia.
Defined.

(** The counting loop of [onlyOne] adds to the entry of [true] the number of
    true flags, as long as that number fits an [int]. *)
Lemma onlyOne_loop (args : list bool) (b : gmap bool Z) :
  0 <= index b true ->
  index b true + Z.of_nat (length (List.filter (fun v => v) args)) <= maxInt ->
  index (foldl (fun b v => <[v := incr (index b v)]> b) b args) true
  = index b true + Z.of_nat (length (List.filter (fun v => v) args)).
Proof.
  revert b. induction args as [|v args IH]; intros b Hpos Hfit.
  - simpl. lia.
  - destruct v; simpl in *.
    + assert (index (<[true := incr (index b true)]> b) true = index b true + 1)
        as Hnew.
      { unfold index at 1. rewrite lookup_insert_eq. simpl.
        apply incr_below. lia. }
      rewrite IH; rewrite Hnew; lia.
    + assert (index (<[false := incr (index b false)]> b) true = index b true)
        as Hsame.
      { unfold index at 1. by rewrite lookup_insert_ne. }
      rewrite IH; rewrite Hsame; lia.
Qed.

(** C6. [onlyOne] holds of a list of flags exactly when one flag is true: it
    fails when none is and when two or more are.  [validateFlags] applies it
    to its flag, returning the configuration error when [onlyOne] fails and
    nil otherwise. *)
Theorem onlyOne_exactly_one_flag (args : list bool) :
  Z.of_nat (length args) <= maxInt ->
  let trues := length (List.filter (fun v => v) args) in
  (trues = 0%nat -> onlyOne args = false) /\
  ((2 <= trues)%nat -> onlyOne args = false) /\
  (trues = 1%nat -> onlyOne args = true) /\
  (forall closeFlag : bool,
     validateFlags closeFlag
     = if onlyOne [closeFlag] then None
       else Some (errorString "update-prs needs one and only one action flag")) /\
  validateFlags true = None /\
  validateFlags false
  = Some (errorString "update-prs needs one and only one action flag").
Proof.
  intros Hfit trues.
  assert (onlyOne args = (Z.of_nat trues =? 1)) as Hcount.
  { unfold onlyOne. rewrite onlyOne_loop; try reflexivity.
    pose proof (List.filter_length_le (fun v => v) args) as Hle.
    change (index (<[true:=0]> (<[false:=0]> ∅)) true) with 0. lia. }
  rewrite Hcount.
  repeat split; try reflexivity.
  - intros ->. reflexivity.
  - intros Htwo. apply Z.eqb_neq. lia.
  - intros ->. reflexivity.
  - intros closeFlag. unfold validateFlags. by destruct (onlyOne [closeFlag]).
Qed.

Lemma onlyOne_exactly_one_flag_witness :
  onlyOne [false; true; false] = true /\ onlyOne [true; false; true] = false.
Proof.
  split.
  - apply (onlyOne_exactly_one_flag [false; true; false]);
      [unfold maxInt; simpl; lia | reflexivity].
  - apply (onlyOne_exactly_one_flag [true; false; true]);
      [unfold maxInt; simpl; lia | simpl; lia].
Defined.

(** [runClose] by the results of [OpenCampaign] and of the prompt. *)
Lemma runClose_cases {W : Type} (env : Env W) (flags : Flags) (w : W) :
  let readCampaignActivity := mkActivity "Reading campaign data" [] in
  let iterate (dir : Campaign) (s1 : State W Event) :=
    let (c, s2) := closeLoop env (Name dir) (Repos dir) zero s1 in
    (tt, mkState (world s2) (trace s2 ++ [summary c])) in
  runClose env flags (init w)
  = match OpenCampaign env w with
    | (inr err, w1) =>
        (tt, mkState w1 [EvStartActivity readCampaignActivity;
                         EvOpenCampaign (inr err);
                         EvEndWithFailure readCampaignActivity err])
    | (inl dir, w1) =>
        let opened := [EvStartActivity readCampaignActivity;
                       EvOpenCampaign (inl dir);
                       EvEndWithSuccess readCampaignActivity] in
        let question := confirmQuestion (Name dir) in
        if yesFlag flags then iterate dir (mkState w1 opened)
        else
          let (ok, w2) := AskConfirm env question w1 in
          if ok then iterate dir (mkState w2 (opened ++ [EvAskConfirm question true]))
          else (tt, mkState w2 (opened ++ [EvAskConfirm question false]))
    end.
Proof.
  unfold runClose, openCampaign, askConfirm, bind, call, emit, ret, init.
  cbn [world trace app].
  destruct (OpenCampaign env w) as [[dir|err] w1]; [|reflexivity].
  destruct (yesFlag flags); cbn [negb world trace app].
  - by destruct (closeLoop env (Name dir) (Repos dir) zero _) as [c s2].
  - destruct (AskConfirm env (confirmQuestion (Name dir)) w1) as [[|] w2];
      cbn [negb world trace app]; [|reflexivity].
    by destruct (closeLoop env (Name dir) (Repos dir) zero _) as [c s2].
Qed.

(** C7. Once the campaign is read: with the skip-confirmation flag set,
    the prompt is never called and the loop starts at once; without the flag
    the prompt is called, the loop starts when the answer is yes, and when
    the answer is no [runClose] returns there and then, having started no
    activity for any repository and printed no summary. *)
Theorem runClose_confirmation_gate {W : Type} (env : Env W) (flags : Flags)
    (w w1 : W) (dir : Campaign) :
  OpenCampaign env w = (inl dir, w1) ->
  let readCampaignActivity := mkActivity "Reading campaign data" [] in
  let opened := [EvStartActivity readCampaignActivity;
                 EvOpenCampaign (inl dir);
                 EvEndWithSuccess readCampaignActivity] in
  let question := "Close all PRs from the " +:+ Name dir +:+ " campaign?" in
  let (ok, w2) := AskConfirm env question w1 in
  let run := runClose env flags (init w) in
  if yesFlag flags then
    List.filter isAskConfirm (trace (snd run)) = [] /\
    let (c, s2) :=
      closeLoop env (Name dir) (Repos dir) zero (mkState w1 opened) in
    run = (tt, mkState (world s2) (trace s2 ++ [summary c]))
  else if ok then
    let (c, s2) :=
      closeLoop env (Name dir) (Repos dir) zero
        (mkState w2 (opened ++ [EvAskConfirm question true])) in
    run = (tt, mkState (world s2) (trace s2 ++ [summary c]))
  else
    run = (tt, mkState w2 (opened ++ [EvAskConfirm question false])) /\
    List.filter isStartActivity (trace (snd run))
    = [EvStartActivity readCampaignActivity] /\
    List.filter isSummary (trace (snd run)) = [].
Proof.
  intros Hopen. pose proof (runClose_cases env flags w) as Hrun.
  cbv zeta in Hrun. rewrite Hopen in Hrun. rewrite Hrun. clear Hrun.
  cbv zeta. fold (confirmQuestion (Name dir)).
  destruct (AskConfirm env (confirmQuestion (Name dir)) w1) as [ok w2].
  destruct (yesFlag flags); [|destruct ok].
  - destruct (closeLoop_trace env (Name dir) (Repos dir) zero
                (mkState w1 [EvStartActivity (mkActivity "Reading campaign data" []);
                             EvOpenCampaign (inl dir);
                             EvEndWithSuccess (mkActivity "Reading campaign data" [])]))
      as (c & w' & new & -> & _ & Hask & _).
    split; [|reflexivity].
    cbn [snd trace world]. rewrite !List.filter_app, Hask. simpl.
    unfold summary. by destruct (errorCount c =? 0).
  - by destruct (closeLoop env (Name dir) (Repos dir) zero _).
  - by repeat split.
Qed.

Lemma runClose_confirmation_gate_witness :
  runClose (demoEnv false) (mkFlags true false) (init [])
  = (tt, mkState []
           [EvStartActivity (mkActivity "Reading campaign data" []);
            EvOpenCampaign (inl renameFoo);
            EvEndWithSuccess (mkActivity "Reading campaign data" []);
            EvAskConfirm "Close all PRs from the rename-foo campaign?" false]) /\
  List.filter isAskConfirm
    (trace (snd (runClose (demoEnv false) (mkFlags true true) (init [])))) = [].
Proof.
  split.
  - exact (proj1 (runClose_confirmation_gate (demoEnv false)
                    (mkFlags true false) [] [] renameFoo eq_refl)).
  - exact (proj1 (runClose_confirmation_gate (demoEnv false)
                    (mkFlags true true) [] [] renameFoo eq_refl)).
Defined.

(** C8. When the run gets past the confirmation gate, the trace ends, after
    the turn of the last repository, with the summary line, and holds no
    other summary line.  With errorCount at zero the line is printed by
    [Successf] and reports doneCount as OK and skippedCount as skipped;
    otherwise it is printed by [Warnf] and reports errorCount as errored as
    well. *)
Theorem runClose_one_summary_line {W : Type} (env : Env W) (flags : Flags)
    (w w1 : W) (dir : Campaign) :
  OpenCampaign env w = (inl dir, w1) ->
  yesFlag flags = true \/
    fst (AskConfirm env (confirmQuestion (Name dir)) w1) = true ->
  let readCampaignActivity := mkActivity "Reading campaign data" [] in
  let opened := [EvStartActivity readCampaignActivity;
                 EvOpenCampaign (inl dir);
                 EvEndWithSuccess readCampaignActivity] in
  let gate :=
    if yesFlag flags then mkState w1 opened
    else mkState (snd (AskConfirm env (confirmQuestion (Name dir)) w1))
                 (opened ++ [EvAskConfirm (confirmQuestion (Name dir)) true]) in
  let (c, s2) := closeLoop env (Name dir) (Repos dir) zero gate in
  let line :=
    if errorCount c =? 0 then
      EvSuccessf ("turbolift update-prs completed %s(%s, %s)" +:+ newline)
        [Normal; Green [Int (doneCount c); Str " OK"];
         Yellow [Int (skippedCount c); Str " skipped"]]
    else
      EvWarnf ("turbolift update-prs completed with %s %s(%s, %s, %s)" +:+ newline)
        [Red [Str "errors"]; Normal; Green [Int (doneCount c); Str " OK"];
         Yellow [Int (skippedCount c); Str " skipped"];
         Red [Int (errorCount c); Str " errored"]] in
  trace (snd (runClose env flags (init w))) = trace s2 ++ [line] /\
  List.filter isSummary (trace (snd (runClose env flags (init w)))) = [line].
Proof.
  intros Hopen Hproceed. pose proof (runClose_cases env flags w) as Hrun.
  cbv zeta in Hrun. rewrite Hopen in Hrun. rewrite Hrun. clear Hrun.
  cbv zeta.
  assert (forall c, isSummary (summary c) = true) as Hline.
  { intros c. unfold summary. by destruct (errorCount c =? 0). }
  assert (forall s1 : State W Event,
            List.filter isSummary (trace s1) = [] ->
            let (c, s2) := closeLoop env (Name dir) (Repos dir) zero s1 in
            trace (mkState (world s2) (trace s2 ++ [summary c]))
            = trace s2 ++ [summary c] /\
            List.filter isSummary
              (trace (mkState (world s2) (trace s2 ++ [summary c])))
            = [summary c]) as Hloop.
  { intros s1 Hnone.
    destruct (closeLoop_trace env (Name dir) (Repos dir) zero s1)
      as (c & w' & new & -> & _ & _ & Hsum).
    split; [reflexivity|]. cbn [trace].
    rewrite !List.filter_app, Hnone, Hsum. simpl. by rewrite Hline. }
  destruct (yesFlag flags).
  - specialize (Hloop (mkState w1
        [EvStartActivity (mkActivity "Reading campaign data" []);
         EvOpenCampaign (inl dir);
         EvEndWithSuccess (mkActivity "Reading campaign data" [])]) eq_refl).
    by destruct (closeLoop env (Name dir) (Repos dir) zero _).
  - destruct Hproceed as [Hyes|Hok]; [discriminate|].
    destruct (AskConfirm env (confirmQuestion (Name dir)) w1) as [ok w2].
    simpl in Hok. subst ok. cbn [snd].
    specialize (Hloop (mkState w2
        ([EvStartActivity (mkActivity "Reading campaign data" []);
          EvOpenCampaign (inl dir);
          EvEndWithSuccess (mkActivity "Reading campaign data" [])]
         ++ [EvAskConfirm (confirmQuestion (Name dir)) true])) eq_refl).
    by destruct (closeLoop env (Name dir) (Repos dir) zero _).
Qed.

Lemma runClose_one_summary_line_witness :
  List.filter isSummary
    (trace (snd (runClose (demoEnv true) (mkFlags true false) (init []))))
  = [EvWarnf ("turbolift update-prs completed with %s %s(%s, %s, %s)" +:+ newline)
       [Red [Str "errors"]; Normal; Green [Int 1; Str " OK"];
        Yellow [Int 1; Str " skipped"]; Red [Int 1; Str " errored"]]].
Proof.
  exact (proj2 (runClose_one_summary_line (demoEnv true) (mkFlags true false)
                  [] [] renameFoo eq_refl (or_intror eq_refl))).
Defined.

End UpdatePRsSpec.

(** ** More on the command runner *)

Module ExecutorFacts.
Import GoInt Executor ExecutorSpec.

Lemma length_append (s1 s2 : string) :
  String.length (s1 +:+ s2) = (String.length s1 + String.length s2)%nat.
Proof. induction s1 as [|a s1 IH]; simpl; [done | by rewrite IH]. Qed.

Lemma len_append (s1 s2 : string) : len (s1 +:+ s2) = len s1 + len s2.
Proof. unfold len. rewrite length_append. lia. Qed.

(** What the loop of [summarizedArgs] puts in the place of one argument is
    never longer than 30 bytes, and is the argument when that one is not. *)
Lemma redacted_short (arg : string) :
  len (if len arg >? 30 then "..."%string else arg) <= 30.
Proof. destruct (Z.gtb_spec (len arg) 30); [by vm_compute | done]. Qed.

Lemma redacted_id (arg : string) :
  len arg <= 30 -> (if len arg >? 30 then "..."%string else arg) = arg.
Proof. intros Hshort. destruct (Z.gtb_spec (len arg) 30); [lia | done]. Qed.

Lemma summarizedArgs_all_short (args : list string) :
  Forall (fun arg => len arg <= 30) (summarizedArgs args).
Proof.
  rewrite summarizedArgs_fmap. apply Forall_fmap, Forall_forall.
  intros arg _. apply redacted_short.
Qed.

Lemma summarizedArgs_of_short (args : list string) :
  Forall (fun arg => len arg <= 30) args -> summarizedArgs args = args.
Proof.
  intros Hshort. rewrite summarizedArgs_fmap.
  induction Hshort as [|arg args Harg _ IH]; [done|].
  by rewrite fmap_cons, IH, redacted_id.
Qed.

(** X1. No argument of the redacted list is longer than 30 bytes, however
    long the real arguments are. *)
Theorem summarizedArgs_bounds_every_argument (args : list string) :
  Forall (fun arg => len arg <= 30) (summarizedArgs args).
Proof.
  rewrite summarizedArgs_fmap.
  induction args as [|arg args IH]; [constructor|].
  rewrite fmap_cons. constructor; [|exact IH].
  destruct (Z.gtb_spec (len arg) 30) as [Hlong|Hshort].
  - by vm_compute.
  - exact Hshort.
Qed.

(** X2. Redacting twice is redacting once: the placeholder is itself short
    enough to be kept. *)
Theorem summarizedArgs_idempotent (args : list string) :
  summarizedArgs (summarizedArgs args) = summarizedArgs args.
Proof. apply summarizedArgs_of_short, summarizedArgs_all_short. Qed.

(** X3. Redaction works argument by argument: the redacted list of a
    concatenation is the concatenation of the redacted lists, and the
    redacted list of no arguments is empty. *)
Theorem summarizedArgs_app (args1 args2 : list string) :
  summarizedArgs (args1 ++ args2) = summarizedArgs args1 ++ summarizedArgs args2 /\
  summarizedArgs [] = [].
Proof. split; [|done]. by rewrite !summarizedArgs_fmap, fmap_app. Qed.

(** X4. A list whose arguments are all at most 30 bytes long is left as it
    is. *)
Theorem summarizedArgs_keeps_short_lists (args : list string) :
  Forall (fun arg => len arg <= 30) args -> summarizedArgs args = args.
Proof.
  intros Hshort. rewrite summarizedArgs_fmap.
  induction Hshort as [|arg args Harg _ IH]; [reflexivity|].
  rewrite fmap_cons, IH. f_equal.
  destruct (Z.gtb_spec (len arg) 30) as [Hlong|_]; [lia | reflexivity].
Qed.

Lemma summarizedArgs_keeps_short_lists_witness :
  summarizedArgs ["pr"; "close"; "rename-foo"]%string
  = ["pr"; "close"; "rename-foo"]%string.
Proof.
  apply (summarizedArgs_keeps_short_lists ["pr"; "close"; "rename-foo"]%string).
  repeat constructor; by vm_compute.
Defined.

(** Joining strings of at most 30 bytes with a one-byte separator gives at
    most 31 bytes a string. *)
Lemma len_concat_short (l : list string) :
  Forall (fun arg => len arg <= 30) l ->
  len (String.concat " " l) <= 31 * Z.of_nat (length l).
Proof.
  induction 1 as [|arg l Harg Hl IH]; [by vm_compute|].
  destruct l as [|arg' l].
  - simpl String.concat. simpl length. lia.
  - change (String.concat " " (arg :: arg' :: l))
      with (arg +:+ " " +:+ String.concat " " (arg' :: l)).
    rewrite !len_append. change (len " ") with 1.
    rewrite (length_cons arg). lia.
Qed.

(** X5. The length of the trace line does not depend on the lengths of the
    arguments: it is at most 19 bytes of fixed text, the program name, the
    working directory, and 31 bytes an argument. *)
Theorem traceLine_length_bounded (name : string) (args : list string)
    (workingDir : string) :
  len (traceLine name args workingDir)
  <= 19 + len name + len workingDir + 31 * Z.of_nat (length args).
Proof.
  unfold traceLine, fmt_strings. rewrite !len_append.
  pose proof (len_concat_short _ (summarizedArgs_all_short args)) as Hjoin.
  rewrite summarizedArgs_fmap, length_fmap in Hjoin.
  rewrite summarizedArgs_fmap.
  change (len "Executing:") with 10. change (len " ") with 1.
  change (len "[") with 1. change (len "]") with 1.
  change (len "in") with 2. change (len newline) with 1.
  lia.
Qed.

(** X6. [Execute] starts the process at most once and waits for it only
    after a successful start, on a command that runs in the working directory
    with both standard output and standard error on the sink; it never calls
    [Output].  Its result is the error of the last call it made. *)
Theorem Execute_starts_then_waits {W Writer : Type} (os : OS W Writer)
    (e : RealExecutor) (out : Writer) (workingDir name : string)
    (args : list string) (w : W) :
  let run := Execute os e out workingDir name args (init w) in
  let command := {| Path := name; Args := name :: args; Dir := workingDir;
                    Stdout := Some out; CmdStderr := Some out |} in
  let calls := List.filter isProcessCall (trace (snd run)) in
  (calls = [] /\ fst run <> None) \/
  (exists err, calls = [EvStart command (Some err)] /\ fst run = Some err) \/
  (exists res, calls = [EvStart command None; EvWait command res] /\
               fst run = res).
Proof.
  run_cases e; eauto 6 using eq_refl.
Qed.

(** X7. [ExecuteAndCapture] runs the process through one call of [Output],
    on a command that runs in the working directory and has neither standard
    output nor standard error set, and never calls [Start] or [Wait].  Its
    error is nil exactly when that call was made and succeeded, and then the
    text is the standard output; when no call was made the text is empty. *)
Theorem ExecuteAndCapture_runs_Output_once {W Writer : Type} (os : OS W Writer)
    (e : RealExecutor) (out : Writer) (workingDir name : string)
    (args : list string) (w : W) :
  let run := ExecuteAndCapture os e out workingDir name args (init w) in
  let command := {| Path := name; Args := name :: args; Dir := workingDir;
                    Stdout := None; CmdStderr := None |} in
  let calls := List.filter isProcessCall (trace (snd run)) in
  (calls = [] /\ fst (fst run) = ""%string /\ snd (fst run) <> None) \/
  (exists stdout, calls = [EvOutput command (stdout, None)] /\
                  fst run = (stdout, None)) \/
  (exists stdout err, calls = [EvOutput command (stdout, Some err)] /\
                      snd (fst run) <> None).
Proof.
  run_cases e; eauto 8 using eq_refl.
Qed.

(** X8. In verbose mode both methods write the trace line to the sink before
    anything else, and write nothing else. *)
Theorem verbose_writes_trace_line_first {W Writer : Type} (os : OS W Writer)
    (e : RealExecutor) (out : Writer) (workingDir name : string)
    (args : list string) (w : W) :
  let verbose := SetVerbose e true in
  let run1 := Execute os verbose out workingDir name args (init w) in
  let run2 := ExecuteAndCapture os verbose out workingDir name args (init w) in
  (exists res,
     trace (snd run1)
     = EvFprintln out (traceLine name args workingDir) res
         :: List.filter isProcessCall (trace (snd run1))) /\
  (exists res,
     trace (snd run2)
     = EvFprintln out (traceLine name args workingDir) res
         :: List.filter isProcessCall (trace (snd run2))).
Proof.
  split; unfold_run; repeat split_call; eauto.
Qed.


End ExecutorFacts.

(** ** More on the batch engine *)

Module UpdatePRsFacts.
Import GoInt GoIntFacts UpdatePRs UpdatePRsSpec.

(** X10. [run] does nothing but log the flag error when the close flag is
    not set: no campaign is read, nothing is asked and no repository is
    touched.  With the close flag set it is [runClose]. *)
Theorem run_needs_close_flag {W : Type} (env : Env W) (flags : Flags)
    (s : State W Event) :
  run env flags s
  = if closeFlag flags then runClose env flags s
    else (tt, mkState (world s)
                (trace s ++
                 [EvErrorf "Error while parsing the flags: %v"
                    (errorString
                       "update-prs needs one and only one action flag")])).
Proof.
  unfold run, validateFlags. destruct (closeFlag flags).
  - change (onlyOne [true]) with true. reflexivity.
  - change (onlyOne [false]) with false. reflexivity.
Qed.

(** X11. When the campaign cannot be read, [runClose] ends the reading
    activity with that failure and returns: nothing is asked, no repository
    is touched and no summary is printed, whatever the flags. *)
Theorem runClose_stops_when_campaign_unreadable {W : Type} (env : Env W)
    (flags : Flags) (w w1 : W) (err : error) :
  OpenCampaign env w = (inr err, w1) ->
  runClose env flags (init w)
  = (tt, mkState w1
           [EvStartActivity (mkActivity "Reading campaign data" []);
            EvOpenCampaign (inr err);
            EvEndWithFailure (mkActivity "Reading campaign data" []) err]).
Proof.
  intros Hopen. pose proof (runClose_cases env flags w) as Hrun.
  cbv zeta in Hrun. by rewrite Hopen in Hrun.
Qed.

Lemma runClose_stops_when_campaign_unreadable_witness :
  runClose (scriptedEnv (inr (errorString "not a campaign directory")) true
              None None)
           (mkFlags true true) (init tt)
  = (tt, mkState tt
           [EvStartActivity (mkActivity "Reading campaign data" []);
            EvOpenCampaign (inr (errorString "not a campaign directory"));
            EvEndWithFailure (mkActivity "Reading campaign data" [])
              (errorString "not a campaign directory")]).
Proof.
  apply (runClose_stops_when_campaign_unreadable
           (scriptedEnv (inr (errorString "not a campaign directory")) true
              None None)
           (mkFlags true true) tt tt (errorString "not a campaign directory")).
  reflexivity.
Defined.

(** X12. On a campaign without repositories, a run that gets past the
    confirmation gate calls neither [os.Stat] nor the client, and prints the
    summary of success with zero OK and zero skipped. *)
Theorem runClose_empty_campaign {W : Type} (env : Env W) (flags : Flags)
    (w w1 : W) (dir : Campaign) :
  OpenCampaign env w = (inl dir, w1) ->
  Repos dir = [] ->
  yesFlag flags = true ->
  runClose env flags (init w)
  = (tt, mkState w1
           [EvStartActivity (mkActivity "Reading campaign data" []);
            EvOpenCampaign (inl dir);
            EvEndWithSuccess (mkActivity "Reading campaign data" []);
            EvSuccessf ("turbolift update-prs completed %s(%s, %s)" +:+ newline)
              [Normal; Green [Int 0; Str " OK"]; Yellow [Int 0; Str " skipped"]]]).
Proof.
  intros Hopen Hempty Hyes. pose proof (runClose_cases env flags w) as Hrun.
  cbv zeta in Hrun. rewrite Hopen, Hyes, Hempty in Hrun. exact Hrun.
Qed.

Lemma runClose_empty_campaign_witness :
  runClose (scriptedEnv (inl (mkCampaign "rename-foo" [])) false None None)
           (mkFlags true true) (init tt)
  = (tt, mkState tt
           [EvStartActivity (mkActivity "Reading campaign data" []);
            EvOpenCampaign (inl (mkCampaign "rename-foo" []));
            EvEndWithSuccess (mkActivity "Reading campaign data" []);
            EvSuccessf ("turbolift update-prs completed %s(%s, %s)" +:+ newline)
              [Normal; Green [Int 0; Str " OK"]; Yellow [Int 0; Str " skipped"]]]).
Proof.
  apply (runClose_empty_campaign
           (scriptedEnv (inl (mkCampaign "rename-foo" [])) false None None)
           (mkFlags true true) tt tt (mkCampaign "rename-foo" []));
    reflexivity.
Defined.

(** Split one turn of the loop into its four cases, with the equation of
    [closeRepo] rewritten in the goal. *)
Ltac turn_cases env campaignName repo c s :=
  let Hcases := fresh "Hcases" in
  pose proof (closeRepo_cases env campaignName repo c s) as Hcases;
  cbv zeta in Hcases;
  destruct (Stat env (FullRepoPath repo) (world s)) as [?serr ?w1] eqn:?Hstat;
  destruct (ClosePullRequest env _ (FullRepoPath repo) campaignName _)
    as [?cerr ?w2] eqn:?Hclose;
  rewrite Hcases; clear Hcases;
  destruct (IsNotExist _) eqn:?Habsent; [|destruct cerr as [[]|]].

(** The counters move with the ends of activities in the trace: what the
    loop adds to a counter, it adds to the ends of the matching kind. *)
Lemma closeLoop_report_inv {W : Type} (env : Env W) (campaignName : string)
    (repos : list Repo) (c : Counters) (s : State W Event) :
  0 <= doneCount c -> 0 <= skippedCount c -> 0 <= errorCount c ->
  doneCount c + skippedCount c + errorCount c + Z.of_nat (length repos)
    <= maxInt ->
  let (c', s') := closeLoop env campaignName repos c s in
  doneCount c' - Z.of_nat (length (List.filter isEndWithSuccess (trace s')))
  = doneCount c - Z.of_nat (length (List.filter isEndWithSuccess (trace s))) /\
  skippedCount c' - Z.of_nat (length (List.filter isEndWithWarning (trace s')))
  = skippedCount c - Z.of_nat (length (List.filter isEndWithWarning (trace s))) /\
  errorCount c' - Z.of_nat (length (List.filter isEndWithFailure (trace s')))
  = errorCount c - Z.of_nat (length (List.filter isEndWithFailure (trace s))).
Proof.
  revert c s. induction repos as [|repo repos IH]; intros c s Hd Hs He Hfit.
  - simpl. lia.
  - simpl closeLoop. unfold bind. rewrite length_cons in Hfit.
    turn_cases env campaignName repo c s;
      match goal with
      | |- context [closeLoop env campaignName repos ?c1 ?s1] =>
          specialize (IH c1 s1);
          destruct (closeLoop env campaignName repos c1 s1) as [c' s']
      end;
      simpl in IH; rewrite incr_below in IH by lia;
      rewrite !List.filter_app, !length_app in IH; simpl in IH;
      lia.
Qed.

(** X13. The summary agrees with what was reported for each repository:
    when the loop is over, doneCount is the number of activities ended with
    success, skippedCount the number ended with a warning, and errorCount
    the number ended with a failure. *)
Theorem closeLoop_counters_match_reports {W : Type} (env : Env W)
    (campaignName : string) (repos : list Repo) (w : W) :
  Z.of_nat (length repos) <= maxInt ->
  let (c, s) := closeLoop env campaignName repos zero (init w) in
  doneCount c = Z.of_nat (length (List.filter isEndWithSuccess (trace s))) /\
  skippedCount c = Z.of_nat (length (List.filter isEndWithWarning (trace s))) /\
  errorCount c = Z.of_nat (length (List.filter isEndWithFailure (trace s))).
Proof.
  intros Hfit.
  pose proof (closeLoop_report_inv env campaignName repos zero (init w)) as Hinv.
  destruct (closeLoop env campaignName repos zero (init w)) as [c s].
  simpl in Hinv. lia.
Qed.

Lemma closeLoop_counters_match_reports_witness :
  let (c, s) :=
    closeLoop (demoEnv true) "rename-foo" [repoA; repoB; repoC; repoB] zero
      (init []) in
  doneCount c = 1 /\ skippedCount c = 2 /\ errorCount c = 1.
Proof.
  pose proof (closeLoop_counters_match_reports (demoEnv true) "rename-foo"
                [repoA; repoB; repoC; repoB] []) as Hmatch.
  simpl in Hmatch. simpl. apply Hmatch. unfold maxInt. lia.
Defined.

(** X14. The summary is the warning exactly when some repository activity
    ended with a failure; when none did it is the success line. *)
Theorem summary_warns_iff_some_failure {W : Type} (env : Env W)
    (campaignName : string) (repos : list Repo) (w : W) :
  Z.of_nat (length repos) <= maxInt ->
  let (c, s) := closeLoop env campaignName repos zero (init w) in
  summary c
  = if existsb isEndWithFailure (trace s) then
      EvWarnf ("turbolift update-prs completed with %s %s(%s, %s, %s)" +:+ newline)
        [Red [Str "errors"]; Normal; Green [Int (doneCount c); Str " OK"];
         Yellow [Int (skippedCount c); Str " skipped"];
         Red [Int (errorCount c); Str " errored"]]
    else
      EvSuccessf ("turbolift update-prs completed %s(%s, %s)" +:+ newline)
        [Normal; Green [Int (doneCount c); Str " OK"];
         Yellow [Int (skippedCount c); Str " skipped"]].
Proof.
  intros Hfit.
  pose proof (closeLoop_report_inv env campaignName repos zero (init w)) as Hinv.
  destruct (closeLoop env campaignName repos zero (init w)) as [c s].
  simpl in Hinv. destruct Hinv as (_ & _ & Herr); [lia..|].
  unfold summary.
  assert (forall l : list Event,
            existsb isEndWithFailure l
            = negb (Z.of_nat (length (List.filter isEndWithFailure l)) =? 0))
    as Hcount.
  { induction l as [|ev l IHl]; [done|]. simpl.
    destruct (isEndWithFailure ev); done. }
  rewrite Hcount. replace (errorCount c) with
    (Z.of_nat (length (List.filter isEndWithFailure (trace s)))) by lia.
  by destruct (_ =? 0).
Qed.

Lemma summary_warns_iff_some_failure_witness :
  summary (fst (closeLoop (demoEnv true) "rename-foo" [repoA; repoB] zero
                  (init [])))
  = EvSuccessf ("turbolift update-prs completed %s(%s, %s)" +:+ newline)
      [Normal; Green [Int 1; Str " OK"]; Yellow [Int 1; Str " skipped"]].
Proof.
  pose proof (summary_warns_iff_some_failure (demoEnv true) "rename-foo"
                [repoA; repoB] []) as Hsummary.
  simpl in Hsummary. apply Hsummary. unfold maxInt. lia.
Defined.

(** When every clone directory is there and the client never fails, the
    loop adds the number of repositories to doneCount and leaves the two
    other counters alone. *)
Lemma closeLoop_all_done {W : Type} (env : Env W) (campaignName : string)
    (repos : list Repo) (c : Counters) (s : State W Event) :
  (forall path w, IsNotExist (fst (Stat env path w)) = false) ->
  (forall a path branch w, fst (ClosePullRequest env a path branch w) = None) ->
  0 <= doneCount c ->
  doneCount c + Z.of_nat (length repos) <= maxInt ->
  fst (closeLoop env campaignName repos c s)
  = mkCounters (doneCount c + Z.of_nat (length repos)) (skippedCount c)
               (errorCount c).
Proof.
  intros Hthere Hok. revert c s.
  induction repos as [|repo repos IH]; intros c s Hd Hfit.
  - simpl. destruct c; simpl. f_equal. lia.
  - simpl closeLoop. unfold bind. rewrite length_cons in Hfit.
    pose proof (Hthere (FullRepoPath repo) (world s)) as Hthere1.
    turn_cases env campaignName repo c s; simpl in Hthere1;
      try congruence;
      match goal with
      | H : ClosePullRequest env ?a ?p ?b ?w = _ |- _ =>
          pose proof (Hok a p b w) as Hok1; rewrite H in Hok1;
          simpl in Hok1; try discriminate Hok1
      end.
    rewrite IH; simpl; rewrite incr_below by lia; [|lia..].
    f_equal. lia.
Qed.

(** X15. When every clone directory is there and the client never fails, all
    repositories are counted as done and the summary is the success line,
    with no repository skipped. *)
Theorem closeLoop_all_succeed {W : Type} (env : Env W) (campaignName : string)
    (repos : list Repo) (w : W) :
  (forall path w, IsNotExist (fst (Stat env path w)) = false) ->
  (forall a path branch w, fst (ClosePullRequest env a path branch w) = None) ->
  Z.of_nat (length repos) <= maxInt ->
  let c := fst (closeLoop env campaignName repos zero (init w)) in
  c = mkCounters (Z.of_nat (length repos)) 0 0 /\
  summary c
  = EvSuccessf ("turbolift update-prs completed %s(%s, %s)" +:+ newline)
      [Normal; Green [Int (Z.of_nat (length repos)); Str " OK"];
       Yellow [Int 0; Str " skipped"]].
Proof.
  intros Hthere Hok Hfit. cbv zeta.
  rewrite closeLoop_all_done by (done || simpl; lia).
  by split.
Qed.

Lemma closeLoop_all_succeed_witness :
  fst (closeLoop (scriptedEnv (inl renameFoo) true None None) "rename-foo"
         [repoA; repoB; repoC] zero (init tt))
  = mkCounters 3 0 0.
Proof.
  refine (proj1 (closeLoop_all_succeed
                   (scriptedEnv (inl renameFoo) true None None) "rename-foo"
                   [repoA; repoB; repoC] tt _ _ _)).
  - reflexivity.
  - reflexivity.
  - unfold maxInt. simpl. lia.
Defined.

(** X16. When no clone directory is there, all repositories are counted as
    skipped and the client is never called. *)
Theorem closeLoop_all_absent {W : Type} (env : Env W) (campaignName : string)
    (repos : list Repo) (w : W) :
  (forall path w, IsNotExist (fst (Stat env path w)) = true) ->
  Z.of_nat (length repos) <= maxInt ->
  let run := closeLoop env campaignName repos zero (init w) in
  fst run = mkCounters 0 (Z.of_nat (length repos)) 0 /\
  List.filter isClosePullRequest (trace (snd run)) = [].
Proof.
  intros Habsent Hfit. cbv zeta.
  assert (forall (c : Counters) (s : State W Event),
            0 <= skippedCount c ->
            skippedCount c + Z.of_nat (length repos) <= maxInt ->
            fst (closeLoop env campaignName repos c s)
            = mkCounters (doneCount c)
                (skippedCount c + Z.of_nat (length repos)) (errorCount c) /\
            List.filter isClosePullRequest
              (trace (snd (closeLoop env campaignName repos c s)))
            = List.filter isClosePullRequest (trace s)) as Hloop.
  { clear Hfit. induction repos as [|repo repos IH]; intros c s Hs Hfit.
    - simpl. split; [|done]. destruct c; simpl. f_equal. lia.
    - simpl closeLoop. unfold bind. rewrite length_cons in Hfit.
      pose proof (Habsent (FullRepoPath repo) (world s)) as Habsent1.
      turn_cases env campaignName repo c s; simpl in Habsent1;
        try congruence.
      match goal with
      | |- context [closeLoop env campaignName repos ?c1 ?s1] =>
          destruct (IH c1 s1) as [Hc Ht]
      end.
      + simpl. rewrite incr_below; lia.
      + simpl. rewrite incr_below; lia.
      + rewrite Hc, Ht. simpl. rewrite incr_below by lia.
        rewrite !List.filter_app. simpl. rewrite app_nil_r.
        split; [f_equal; lia | done]. }
  destruct (Hloop zero (init w)) as [Hc Ht]; [simpl; lia..|].
  by rewrite Hc, Ht.
Qed.

Lemma closeLoop_all_absent_witness :
  let run :=
    closeLoop (scriptedEnv (inl renameFoo) true
                 (Some (pathError "stat" "work" ENOENT)) None)
      "rename-foo" [repoA; repoB; repoC] zero (init tt) in
  fst run = mkCounters 0 3 0 /\
  List.filter isClosePullRequest (trace (snd run)) = [].
Proof.
  refine (closeLoop_all_absent
            (scriptedEnv (inl renameFoo) true
               (Some (pathError "stat" "work" ENOENT)) None)
            "rename-foo" [repoA; repoB; repoC] tt _ _).
  - reflexivity.
  - unfold maxInt. simpl. lia.
Defined.

(** X17. The loop checks the clone directory of every repository, once
    each and in the order of the list, whatever the outcome of the turns
    before: the paths given to [os.Stat] are the paths of the repositories. *)
Theorem closeLoop_stats_every_clone {W : Type} (env : Env W)
    (campaignName : string) (repos : list Repo) (w : W) :
  omap statPath (trace (snd (closeLoop env campaignName repos zero (init w))))
  = FullRepoPath <$> repos.
Proof.
  assert (forall (c : Counters) (s : State W Event),
            omap statPath (trace (snd (closeLoop env campaignName repos c s)))
            = omap statPath (trace s) ++ (FullRepoPath <$> repos)) as Hloop.
  { induction repos as [|repo repos IH]; intros c s.
    - simpl. by rewrite app_nil_r.
    - simpl closeLoop. unfold bind.
      turn_cases env campaignName repo c s;
        rewrite IH; simpl; rewrite !omap_app; simpl;
        by rewrite <- app_assoc. }
  by rewrite Hloop.
Qed.

(** X18. The client is only ever called for a repository of the campaign:
    on its clone directory, with its activity as output and the name of the
    campaign as branch name. *)
Theorem closeLoop_closes_campaign_repos_only {W : Type} (env : Env W)
    (campaignName : string) (repos : list Repo) (w : W) :
  Forall (fun ev =>
            match ev with
            | EvClosePullRequest output workingDir branchName _ =>
                branchName = campaignName /\
                exists repo,
                  In repo repos /\
                  workingDir = FullRepoPath repo /\
                  output = mkActivity "Closing PR in %s" [FullRepoName repo]
            | _ => True
            end)
         (trace (snd (closeLoop env campaignName repos zero (init w)))).
Proof.
  set (P all := fun ev =>
         match ev with
         | EvClosePullRequest output workingDir branchName _ =>
             branchName = campaignName /\
             exists repo : Repo,
               In repo all /\
               workingDir = FullRepoPath repo /\
               output = mkActivity "Closing PR in %s" [FullRepoName repo]
         | _ => True
         end).
  assert (forall (all part : list Repo) (c : Counters) (s : State W Event),
            (forall repo, In repo part -> In repo all) ->
            Forall (P all) (trace s) ->
            Forall (P all) (trace (snd (closeLoop env campaignName part c s))))
    as Hloop.
  { intros all part. induction part as [|repo part IH]; intros c s Hsub Hs.
    - done.
    - simpl closeLoop. unfold bind.
      assert (In repo all) as Hrepo by (apply Hsub; by left).
      turn_cases env campaignName repo c s;
        (apply IH; [intros r Hr; apply Hsub; by right|]); simpl;
        apply Forall_app; (split; [done|]);
        repeat constructor; eauto. }
  apply Hloop; [done | constructor].
Qed.

(** X19. The counters are only written: what the loop calls, in which order
    and with what results does not depend on the values they start from. *)
Theorem closeLoop_counters_do_not_steer {W : Type} (env : Env W)
    (campaignName : string) (repos : list Repo) (c1 c2 : Counters)
    (s : State W Event) :
  snd (closeLoop env campaignName repos c1 s)
  = snd (closeLoop env campaignName repos c2 s).
Proof.
  revert c1 c2 s. induction repos as [|repo repos IH]; intros c1 c2 s.
  - reflexivity.
  - simpl closeLoop. unfold bind.
    pose proof (closeRepo_cases env campaignName repo c1 s) as H1.
    pose proof (closeRepo_cases env campaignName repo c2 s) as H2.
    cbv zeta in H1, H2.
    destruct (Stat env (FullRepoPath repo) (world s)) as [serr w1].
    destruct (ClosePullRequest env _ (FullRepoPath repo) campaignName w1)
      as [cerr w2].
    rewrite H1, H2.
    destruct (IsNotExist serr); [|destruct cerr as [[]|]]; apply IH.
Qed.

Lemma filter_length_Permutation {A : Type} (f : A -> bool) (l l' : list A) :
  l ≡ₚ l' -> length (List.filter f l) = length (List.filter f l').
Proof.
  induction 1 as [|x l l' _ IH|x y l|l l' l'' _ IH1 _ IH2]; simpl.
  - done.
  - destruct (f x); simpl; by rewrite IH.
  - by destruct (f x), (f y).
  - by rewrite IH1.
Qed.

(** X20. The order of the flags does not matter to [onlyOne]. *)
Theorem onlyOne_order_irrelevant (args args' : list bool) :
  args ≡ₚ args' ->
  Z.of_nat (length args) <= maxInt ->
  onlyOne args = onlyOne args'.
Proof.
  intros Hperm Hfit.
  pose proof (Permutation_length Hperm) as Hlen.
  pose proof (filter_length_Permutation (fun v => v) _ _ Hperm) as Htrues.
  pose proof (List.filter_length_le (fun v => v) args) as Hle.
  pose proof (List.filter_length_le (fun v => v) args') as Hle'.
  unfold onlyOne.
  rewrite !onlyOne_loop;
    change (index (<[true:=0]> (<[false:=0]> ∅)) true) with 0; lia.
Qed.

Lemma onlyOne_order_irrelevant_witness :
  onlyOne [true; false; false] = onlyOne [false; false; true].
Proof.
  apply (onlyOne_order_irrelevant [true; false; false] [false; false; true]).
  - apply (Permutation_cons_append [false; false] true).
  - unfold maxInt. simpl. lia.
Defined.


(** The loop ends every activity it starts. *)
Lemma closeLoop_balanced {W : Type} (env : Env W) (campaignName : string)
    (repos : list Repo) (c : Counters) (s : State W Event) :
  let isEnd ev :=
    isEndWithSuccess ev || isEndWithWarning ev || isEndWithFailure ev in
  let s' := snd (closeLoop env campaignName repos c s) in
  (length (List.filter isStartActivity (trace s'))
   + length (List.filter isEnd (trace s))
   = length (List.filter isStartActivity (trace s))
     + length (List.filter isEnd (trace s')))%nat.
Proof.
  cbv zeta. revert c s. induction repos as [|repo repos IH]; intros c s.
  - simpl. lia.
  - simpl closeLoop. unfold bind.
    turn_cases env campaignName repo c s;
      match goal with
      | |- context [closeLoop env campaignName repos ?c1 ?s1] =>
          specialize (IH c1 s1)
      end;
      simpl in IH; rewrite !List.filter_app, !length_app in IH; simpl in IH;
      simpl; lia.
Qed.

(** X22. However [runClose] goes, it ends as many activities as it starts:
    the reading of the campaign and the turn of each repository are each
    closed with a success, a warning or a failure. *)
Theorem runClose_ends_every_activity {W : Type} (env : Env W) (flags : Flags)
    (w : W) :
  let isEnd ev :=
    isEndWithSuccess ev || isEndWithWarning ev || isEndWithFailure ev in
  let s' := snd (runClose env flags (init w)) in
  length (List.filter isStartActivity (trace s'))
  = length (List.filter isEnd (trace s')).
Proof.
  cbv zeta. pose proof (runClose_cases env flags w) as Hrun.
  cbv zeta in Hrun. rewrite Hrun. clear Hrun.
  assert (forall c, isStartActivity (summary c) = false /\
                    isEndWithSuccess (summary c) = false /\
                    isEndWithWarning (summary c) = false /\
                    isEndWithFailure (summary c) = false) as Hline.
  { intros c. unfold summary. by destruct (errorCount c =? 0). }
  destruct (OpenCampaign env w) as [[dir|err] w1]; [|reflexivity].
  assert (forall s1 : State W Event,
            length (List.filter isStartActivity (trace s1))
            = length (List.filter
                        (fun ev => isEndWithSuccess ev || isEndWithWarning ev
                                   || isEndWithFailure ev) (trace s1)) ->
            length (List.filter isStartActivity
                      (trace (snd (let (c, s2) :=
                                     closeLoop env (Name dir) (Repos dir) zero s1 in
                                   (tt, mkState (world s2)
                                          (trace s2 ++ [summary c]))))))
            = length (List.filter
                        (fun ev => isEndWithSuccess ev || isEndWithWarning ev
                                   || isEndWithFailure ev)
                        (trace (snd (let (c, s2) :=
                                       closeLoop env (Name dir) (Repos dir) zero s1 in
                                     (tt, mkState (world s2)
                                            (trace s2 ++ [summary c])))))))
    as Hiter.
  { intros s1 Hs1.
    pose proof (closeLoop_balanced env (Name dir) (Repos dir) zero s1) as Hbal.
    cbv zeta in Hbal.
    destruct (closeLoop env (Name dir) (Repos dir) zero s1) as [c s2].
    simpl in *. rewrite !List.filter_app, !length_app. simpl.
    destruct (Hline c) as (-> & -> & -> & ->). simpl. lia. }
  destruct (yesFlag flags).
  - by apply Hiter.
  - destruct (AskConfirm env (confirmQuestion (Name dir)) w1) as [[|] w2].
    + by apply Hiter.
    + reflexivity.
Qed.

End UpdatePRsFacts.
